(** * AP_MotorsHeli_Single: motor control class for a traditional helicopter

    A shallow embedding of [libraries/AP_Motors/AP_MotorsHeli_Single.h].

    Conventions.
    - A C++ [float] is idealised as a rational number ([Q]); every constant of
      the header (0.25, 1, -1, 0, 10.0, 1000) is exactly representable, and
      NaN and the infinities are outside the model.
    - [AP_Int16] and [AP_Int8] parameters hold integers ([Z]).
    - The class is a record of its member variables; a member function that
      writes a member is a function from record to record. *)

From Stdlib Require Import ZArith QArith Qabs Qminmax Qround Bool List Lia Lqa.
Import ListNotations.

(** ** Comparisons on floats, as the C++ operators [>=], [<=], [>] *)

Definition Qge_bool (x y : Q) : bool :=
  match (x ?= y)%Q with Lt => false | _ => true end.

Definition Qgt_bool (x y : Q) : bool :=
  match (x ?= y)%Q with Gt => true | _ => false end.

(** ** Output channels and tail types (the header's macros) *)

Section Channels.

(** [CH_7] is a macro of the hardware abstraction layer; the header only
    names it, so it is a parameter here. *)
Variable CH_7 : Z.

Definition AP_MOTORS_HELI_SINGLE_EXTGYRO : Z := CH_7.
Definition AP_MOTORS_HELI_SINGLE_TAILRSC : Z := CH_7.

End Channels.

Definition AP_MOTORS_HELI_SINGLE_TAILTYPE_SERVO : Z := 0.
Definition AP_MOTORS_HELI_SINGLE_TAILTYPE_SERVO_EXTGYRO : Z := 1.
Definition AP_MOTORS_HELI_SINGLE_TAILTYPE_DIRECTDRIVE_VARPITCH : Z := 2.
Definition AP_MOTORS_HELI_SINGLE_TAILTYPE_DIRECTDRIVE_FIXEDPITCH_CW : Z := 3.
Definition AP_MOTORS_HELI_SINGLE_TAILTYPE_DIRECTDRIVE_FIXEDPITCH_CCW : Z := 4.
Definition AP_MOTORS_HELI_SINGLE_TAILTYPE_DIRECTDRIVE_VARPIT_EXT_GOV : Z := 5.

Definition AP_MOTORS_HELI_SINGLE_DDVP_SPEED_DEFAULT : Z := 50.
Definition AP_MOTORS_HELI_SINGLE_EXT_GYRO_GAIN : Z := 350.
Definition AP_MOTORS_HELI_SINGLE_NUM_SWASHPLATE_SERVOS : Z := 3.

(** ** The objects the class holds *)

Inductive Aux_servo_function_t : Set :=
| k_heli_rsc
| k_heli_tail_rsc.

(** The rotor speed controller: what its constructor receives and what its
    getters return. *)
Record AP_MotorsHeli_RSC : Set := {
  rsc_aux_fn : Aux_servo_function_t;
  rsc_default_channel : Z;
  get_rotor_speed : Q;
  get_desired_speed : Q;
  get_critical_speed : Q;
  get_governor_output : Q;
  get_control_output : Q
}.

(** [AP_MotorsHeli_RSC(aux_fn, default_channel)]: the controller keeps the
    function and the channel it is given; before it has run, its getters
    read 0 here (nothing below depends on those values). *)
Definition RSC_new (fn : Aux_servo_function_t) (ch : Z) : AP_MotorsHeli_RSC :=
  {| rsc_aux_fn := fn; rsc_default_channel := ch;
     get_rotor_speed := 0; get_desired_speed := 0; get_critical_speed := 0;
     get_governor_output := 0; get_control_output := 0 |}.

(** The member variables of [AP_MotorsHeli_Single] that the inline member
    functions, the slow start and the feed-forward read or write, with
    [_main_rotor] of the base class. *)
Record AP_MotorsHeli_Single : Set := {
  _main_rotor : AP_MotorsHeli_RSC;
  _tail_rotor : AP_MotorsHeli_RSC;
  _tail_type : Z;                (* AP_Int16 *)
  _ext_gyro_gain_std : Z;        (* AP_Int16 *)
  _ext_gyro_gain_acro : Z;       (* AP_Int16 *)
  _collective_yaw_effect : Q;    (* AP_Float *)
  _flybar_mode : Z;              (* AP_Int8 *)
  _direct_drive_tailspeed : Z;   (* AP_Int16 *)
  _slowstart_amplitude : Q;      (* AP_Float *)
  _slowstart_time : Q;           (* AP_Float *)
  check_init : bool;
  time_div_startime : Q;
  time_init_init : Q;
  _acro_tail : bool;
  Bv_inv : list Q;               (* float [4] *)
  Bn : list (list Q)             (* float [4][3] *)
}.

(** Default member initialisers of the feed-forward arrays. *)
Definition Bv_inv_init : list Q := [0.25; 0.25; 0.25; 0.25]%Q.

Definition Bn_init : list (list Q) :=
  [ [ 1; -1;  0];
    [ 0;  1; -1];
    [ 0;  0;  1];
    [-1;  0;  0] ]%Q.

(** The values [AP_Param::setup_object_defaults] gives the parameters come
    from [var_info], which the header only declares. *)
Record ParamDefaults : Set := {
  d_tail_type : Z;
  d_ext_gyro_gain_std : Z;
  d_ext_gyro_gain_acro : Z;
  d_collective_yaw_effect : Q;
  d_flybar_mode : Z;
  d_direct_drive_tailspeed : Z;
  d_slowstart_amplitude : Q;
  d_slowstart_time : Q
}.

(** The constructor: the tail rotor controller is built on the tail RSC
    channel, the members take their default initialisers. *)
Definition construct (CH_7 : Z) (main : AP_MotorsHeli_RSC) (d : ParamDefaults)
    (speed_hz : Z) : AP_MotorsHeli_Single :=
  {| _main_rotor := main;
     _tail_rotor := RSC_new k_heli_tail_rsc (AP_MOTORS_HELI_SINGLE_TAILRSC CH_7);
     _tail_type := d_tail_type d;
     _ext_gyro_gain_std := d_ext_gyro_gain_std d;
     _ext_gyro_gain_acro := d_ext_gyro_gain_acro d;
     _collective_yaw_effect := d_collective_yaw_effect d;
     _flybar_mode := d_flybar_mode d;
     _direct_drive_tailspeed := d_direct_drive_tailspeed d;
     _slowstart_amplitude := d_slowstart_amplitude d;
     _slowstart_time := d_slowstart_time d;
     check_init := true;
     time_div_startime := 0;
     time_init_init := 0;
     _acro_tail := false;
     Bv_inv := Bv_inv_init;
     Bn := Bn_init |}.

(** ** Inline member functions *)

(** [AP_Int16::set] of a [float]: the implicit conversion to [int16_t]
    drops the fractional part (rounds toward zero). *)
Definition AP_Int16_set (v : Q) : Z := Z.quot (Qnum v) (Zpos (Qden v)).

Definition set_ext_gyro_gain_std (g : Z) (m : AP_MotorsHeli_Single)
  : AP_MotorsHeli_Single :=
  {| _main_rotor := _main_rotor m;
     _tail_rotor := _tail_rotor m;
     _tail_type := _tail_type m;
     _ext_gyro_gain_std := g;
     _ext_gyro_gain_acro := _ext_gyro_gain_acro m;
     _collective_yaw_effect := _collective_yaw_effect m;
     _flybar_mode := _flybar_mode m;
     _direct_drive_tailspeed := _direct_drive_tailspeed m;
     _slowstart_amplitude := _slowstart_amplitude m;
     _slowstart_time := _slowstart_time m;
     check_init := check_init m;
     time_div_startime := time_div_startime m;
     time_init_init := time_init_init m;
     _acro_tail := _acro_tail m;
     Bv_inv := Bv_inv m;
     Bn := Bn m |}.

(** [void ext_gyro_gain(float gain)
      { if (gain >= 0 && gain <= 1000) { _ext_gyro_gain_std.set(gain); } }] *)
Definition ext_gyro_gain (gain : Q) (m : AP_MotorsHeli_Single)
  : AP_MotorsHeli_Single :=
  if Qge_bool gain 0 && Qle_bool gain 1000
  then set_ext_gyro_gain_std (AP_Int16_set gain) m
  else m.

(** [bool has_flybar() const { return _flybar_mode; }] *)
Definition has_flybar (m : AP_MotorsHeli_Single) : bool :=
  negb (_flybar_mode m =? 0)%Z.

(** [bool supports_yaw_passthrough() const
      { return _tail_type == AP_MOTORS_HELI_SINGLE_TAILTYPE_SERVO_EXTGYRO; }] *)
Definition supports_yaw_passthrough (m : AP_MotorsHeli_Single) : bool :=
  (_tail_type m =? AP_MOTORS_HELI_SINGLE_TAILTYPE_SERVO_EXTGYRO)%Z.

(** [void set_acro_tail(bool set) { _acro_tail = set; }] *)
Definition set_acro_tail (set : bool) (m : AP_MotorsHeli_Single)
  : AP_MotorsHeli_Single :=
  {| _main_rotor := _main_rotor m;
     _tail_rotor := _tail_rotor m;
     _tail_type := _tail_type m;
     _ext_gyro_gain_std := _ext_gyro_gain_std m;
     _ext_gyro_gain_acro := _ext_gyro_gain_acro m;
     _collective_yaw_effect := _collective_yaw_effect m;
     _flybar_mode := _flybar_mode m;
     _direct_drive_tailspeed := _direct_drive_tailspeed m;
     _slowstart_amplitude := _slowstart_amplitude m;
     _slowstart_time := _slowstart_time m;
     check_init := check_init m;
     time_div_startime := time_div_startime m;
     time_init_init := time_init_init m;
     _acro_tail := set;
     Bv_inv := Bv_inv m;
     Bn := Bn m |}.

(** [float get_main_rotor_speed() const { return _main_rotor.get_rotor_speed(); }] *)
Definition get_main_rotor_speed (m : AP_MotorsHeli_Single) : Q :=
  get_rotor_speed (_main_rotor m).

(** [float get_desired_rotor_speed() const { return _main_rotor.get_desired_speed(); }] *)
Definition get_desired_rotor_speed (m : AP_MotorsHeli_Single) : Q :=
  get_desired_speed (_main_rotor m).

(** [bool rotor_speed_above_critical() const
      { return _main_rotor.get_rotor_speed() > _main_rotor.get_critical_speed(); }] *)
Definition rotor_speed_above_critical (m : AP_MotorsHeli_Single) : bool :=
  Qgt_bool (get_rotor_speed (_main_rotor m)) (get_critical_speed (_main_rotor m)).

(** The clamp of a gain into [0, 1000], the behaviour a clamping setter
    would have. *)
Definition constrain_gain (g : Q) : Q := Qmax 0 (Qmin g 1000).

(** ** Feed-forward allocator *)

(** Inner product of two float arrays of the same length. *)
Definition dot (x y : list Q) : Q :=
  fold_right Qplus 0 (map (fun p => fst p * snd p) (combine x y)).

(** Modelled from the spec: the function [allocate] is not in the header,
    which holds only the arrays [Bn] and [Bv_inv].  The spec gives
    "a fixed linear allocator mapping a 3-dimensional virtual command space
    to a 4-dimensional actuator space via a constant matrix": row [i] of the
    result is the inner product of row [i] of [Bn] with the command. *)
Definition allocate (m : AP_MotorsHeli_Single) (v : list Q) : list Q :=
  map (fun row => dot row v) (Bn m).

(** Modelled from the spec: what the 4-element vector [Bv_inv] reads off an
    actuator vector, their inner product. *)
Definition Bv_inv_apply (m : AP_MotorsHeli_Single) (a : list Q) : Q :=
  dot (Bv_inv m) a.

(** Modelled from the spec: the function [estimate] is not in the header.
    The spec gives "a constant 4-element vector ... used for the reverse
    mapping (actuator-to-virtual estimate)", of type
    [estimate(actuator_feedback[4]) -> virtual_estimate[3]].  A 4-element
    vector acts on an actuator vector through [Bv_inv_apply]; how that number
    is laid out on the three virtual axes is not given and is the
    argument [spread]. *)
Definition estimate (spread : Q -> list Q) (m : AP_MotorsHeli_Single)
    (a : list Q) : list Q :=
  spread (Bv_inv_apply m a).

(** [spread] reads the value of its argument, not the fraction that
    represents it. *)
Definition respects_Qeq (spread : Q -> list Q) : Prop :=
  forall x y, x == y -> Forall2 Qeq (spread x) (spread y).

(** Two vectors agree within the tolerance [eps], component by component. *)
Definition within_tolerance (eps : Q) (x y : list Q) : Prop :=
  Forall2 (fun a b => Qabs (a - b) <= eps) x y.

(** ** Slow start *)

Definition set_slowstart (ci : bool) (t0 frac : Q) (m : AP_MotorsHeli_Single)
  : AP_MotorsHeli_Single :=
  {| _main_rotor := _main_rotor m;
     _tail_rotor := _tail_rotor m;
     _tail_type := _tail_type m;
     _ext_gyro_gain_std := _ext_gyro_gain_std m;
     _ext_gyro_gain_acro := _ext_gyro_gain_acro m;
     _collective_yaw_effect := _collective_yaw_effect m;
     _flybar_mode := _flybar_mode m;
     _direct_drive_tailspeed := _direct_drive_tailspeed m;
     _slowstart_amplitude := _slowstart_amplitude m;
     _slowstart_time := _slowstart_time m;
     check_init := ci;
     time_div_startime := frac;
     time_init_init := t0;
     _acro_tail := _acro_tail m;
     Bv_inv := Bv_inv m;
     Bn := Bn m |}.

Section SlowStart.

(** Modelled from the spec: the "small non-zero floor value" the ramp
    starts from; the header gives no constant for it. *)
Variable slowstart_floor : Q.

(** Modelled from the spec: the slow-start code is not in the header, which
    holds only its members ([_slowstart_amplitude], [_slowstart_time],
    [check_init], [time_div_startime], [time_init_init]).  The spec gives:
    "on first enablement, records the elapsed time; produces an offset
    rising linearly from a small non-zero floor value toward the configured
    amplitude over the configured duration, then holds"; "disabling resets
    progress to zero so re-enabling restarts the signal from its initial
    condition".  One control cycle at clock time [now]: while enabled, the
    first cycle ([check_init] set) records [now] as the time origin, and
    [time_div_startime] is the elapsed time over [_slowstart_time], held at
    1 once the duration has passed; while disabled, the progress is zero and
    [check_init] is set again. *)
Definition slowstart_update (enabled : bool) (now : Q)
    (m : AP_MotorsHeli_Single) : AP_MotorsHeli_Single :=
  if enabled then
    let t0 := if check_init m then now else time_init_init m in
    set_slowstart false t0 (Qmin 1 ((now - t0) / _slowstart_time m)) m
  else
    set_slowstart true (time_init_init m) 0 m.

(** Modelled from the spec: the offset of the ramp, linear in the progress
    from the floor value (progress 0) to the configured amplitude
    (progress 1). *)
Definition slowstart_offset (m : AP_MotorsHeli_Single) : Q :=
  slowstart_floor
  + (_slowstart_amplitude m - slowstart_floor) * time_div_startime m.

(** Enabled control cycles at the clock times [ts], in order. *)
Definition slowstart_run (ts : list Q) (m : AP_MotorsHeli_Single)
  : AP_MotorsHeli_Single :=
  fold_left (fun s t => slowstart_update true t s) ts m.

End SlowStart.

(** The ramp has been started at [t0] with the configuration of [m]. *)
Definition slowstart_started (m : AP_MotorsHeli_Single) (t0 : Q)
    (s : AP_MotorsHeli_Single) : Prop :=
  check_init s = false /\ time_init_init s = t0 /\
  _slowstart_amplitude s = _slowstart_amplitude m /\
  _slowstart_time s = _slowstart_time m.

(** ** Pre-arm parameter check *)



Section ParameterCheck.

(** Modelled from the spec: which tail types assume that no flybar is
    fitted; the spec names the conflict without listing the types. *)
Variable tail_assumes_no_flybar : Z -> bool.


End ParameterCheck.

(** ** Sample configurations *)

(** Modelled from the spec: a minimal valid default configuration: servo
    tail, the header's default gyro gain and direct-drive speed, no
    collective-yaw compensation, no flybar, a one-second slow start to 50. *)
Definition default_params : ParamDefaults :=
  {| d_tail_type := AP_MOTORS_HELI_SINGLE_TAILTYPE_SERVO;
     d_ext_gyro_gain_std := AP_MOTORS_HELI_SINGLE_EXT_GYRO_GAIN;
     d_ext_gyro_gain_acro := AP_MOTORS_HELI_SINGLE_EXT_GYRO_GAIN;
     d_collective_yaw_effect := 0;
     d_flybar_mode := 0;
     d_direct_drive_tailspeed := AP_MOTORS_HELI_SINGLE_DDVP_SPEED_DEFAULT;
     d_slowstart_amplitude := 50;
     d_slowstart_time := 1 |}.

(** A freshly constructed object: channel 7 at index 6, main rotor on the
    next channel, 400 Hz. *)
Definition heli0 : AP_MotorsHeli_Single :=
  construct 6 (RSC_new k_heli_rsc 7) default_params 400.

Definition with_tail_type (t : Z) (m : AP_MotorsHeli_Single)
  : AP_MotorsHeli_Single :=
  {| _main_rotor := _main_rotor m;
     _tail_rotor := _tail_rotor m;
     _tail_type := t;
     _ext_gyro_gain_std := _ext_gyro_gain_std m;
     _ext_gyro_gain_acro := _ext_gyro_gain_acro m;
     _collective_yaw_effect := _collective_yaw_effect m;
     _flybar_mode := _flybar_mode m;
     _direct_drive_tailspeed := _direct_drive_tailspeed m;
     _slowstart_amplitude := _slowstart_amplitude m;
     _slowstart_time := _slowstart_time m;
     check_init := check_init m;
     time_div_startime := time_div_startime m;
     time_init_init := time_init_init m;
     _acro_tail := _acro_tail m;
     Bv_inv := Bv_inv m;
     Bn := Bn m |}.



Definition with_main_rotor (r : AP_MotorsHeli_RSC) (m : AP_MotorsHeli_Single)
  : AP_MotorsHeli_Single :=
  {| _main_rotor := r;
     _tail_rotor := _tail_rotor m;
     _tail_type := _tail_type m;
     _ext_gyro_gain_std := _ext_gyro_gain_std m;
     _ext_gyro_gain_acro := _ext_gyro_gain_acro m;
     _collective_yaw_effect := _collective_yaw_effect m;
     _flybar_mode := _flybar_mode m;
     _direct_drive_tailspeed := _direct_drive_tailspeed m;
     _slowstart_amplitude := _slowstart_amplitude m;
     _slowstart_time := _slowstart_time m;
     check_init := check_init m;
     time_div_startime := time_div_startime m;
     time_init_init := time_init_init m;
     _acro_tail := _acro_tail m;
     Bv_inv := Bv_inv m;
     Bn := Bn m |}.

(** A main rotor controller turning at [speed] with critical speed [crit]. *)
Definition rsc_at (speed crit : Q) : AP_MotorsHeli_RSC :=
  {| rsc_aux_fn := k_heli_rsc; rsc_default_channel := 7;
     get_rotor_speed := speed; get_desired_speed := speed;
     get_critical_speed := crit;
     get_governor_output := 0; get_control_output := 0 |}.

(** ** Calls of the inline setters *)

(** A call of one of the two member functions of the header that write a
    member: [ext_gyro_gain(gain)] or [set_acro_tail(set)]. *)
Inductive setter_call : Set :=
| call_ext_gyro_gain (gain : Q)
| call_set_acro_tail (set : bool).

Definition apply_call (c : setter_call) (m : AP_MotorsHeli_Single)
  : AP_MotorsHeli_Single :=
  match c with
  | call_ext_gyro_gain gain => ext_gyro_gain gain m
  | call_set_acro_tail set => set_acro_tail set m
  end.

(** The calls [cs] made one after the other, the first of the list first. *)
Definition apply_calls (cs : list setter_call) (m : AP_MotorsHeli_Single)
  : AP_MotorsHeli_Single :=
  fold_left (fun s c => apply_call c s) cs m.

(** The gains that the calls [cs] hand to [ext_gyro_gain], in order. *)
Definition gains_of (cs : list setter_call) : list Q :=
  flat_map (fun c => match c with
                     | call_ext_gyro_gain gain => [gain]
                     | call_set_acro_tail _ => []
                     end) cs.

(** The flags that the calls [cs] hand to [set_acro_tail], in order. *)
Definition acro_flags_of (cs : list setter_call) : list bool :=
  flat_map (fun c => match c with
                     | call_ext_gyro_gain _ => []
                     | call_set_acro_tail set => [set]
                     end) cs.

(** The condition of the [if] in [ext_gyro_gain]:
    [gain >= 0 && gain <= 1000]. *)
Definition gain_accepted (gain : Q) : bool :=
  Qge_bool gain 0 && Qle_bool gain 1000.

(** [float get_governor_output() const { return _main_rotor.get_governor_output(); }] *)
Definition get_main_governor_output (m : AP_MotorsHeli_Single) : Q :=
  get_governor_output (_main_rotor m).

(** [float get_control_output() const { return _main_rotor.get_control_output(); }] *)
Definition get_main_control_output (m : AP_MotorsHeli_Single) : Q :=
  get_control_output (_main_rotor m).

(** * Properties *)

(** ** Float comparisons *)

Lemma Qle_bool_true (x y : Q) : Qle_bool x y = true <-> (x <= y)%Q.
Proof. apply Qle_bool_iff. Qed.

Lemma Qge_bool_true (x y : Q) : Qge_bool x y = true <-> (y <= x)%Q.
Proof.
  unfold Qge_bool. destruct (x ?= y)%Q eqn:E.
  - apply Qeq_alt in E. split; [intros _; rewrite E; apply Qle_refl | reflexivity].
  - apply Qlt_alt in E. split; [discriminate | intros H; exfalso; lra].
  - apply Qgt_alt in E. split; [intros _; apply Qlt_le_weak; exact E | reflexivity].
Qed.

Lemma Qgt_bool_true (x y : Q) : Qgt_bool x y = true <-> (y < x)%Q.
Proof.
  unfold Qgt_bool. destruct (x ?= y)%Q eqn:E.
  - apply Qeq_alt in E. split; [discriminate | intros H; exfalso; lra].
  - apply Qlt_alt in E. split; [discriminate | intros H; exfalso; lra].
  - apply Qgt_alt in E. split; [intros _; exact E | reflexivity].
Qed.

Lemma in_gain_range (g : Q) :
  Qge_bool g 0 && Qle_bool g 1000 = true <-> 0 <= g <= 1000.
Proof.
  rewrite andb_true_iff, Qge_bool_true, Qle_bool_true. reflexivity.
Qed.

(** ** The conversion from float to [int16_t] *)

Lemma AP_Int16_set_nonneg (x : Q) : 0 <= x -> AP_Int16_set x = Qfloor x.
Proof.
  destruct x as [n d]. unfold Qle, AP_Int16_set, Qfloor. simpl. intros H.
  apply Z.quot_div_nonneg; lia.
Qed.

Lemma AP_Int16_set_integer (x : Q) (n : Z) :
  x == inject_Z n -> AP_Int16_set x = n.
Proof.
  destruct x as [k d]. unfold Qeq, AP_Int16_set. simpl. intros H.
  replace k with (n * Z.pos d)%Z by lia.
  apply Z.quot_mul. discriminate.
Qed.

Lemma AP_Int16_set_comp (x y : Q) :
  0 <= x -> x == y -> AP_Int16_set x = AP_Int16_set y.
Proof.
  intros Hx Hxy.
  rewrite (AP_Int16_set_nonneg x Hx), (AP_Int16_set_nonneg y) by (rewrite <- Hxy; exact Hx).
  apply Qfloor_comp. exact Hxy.
Qed.

Lemma constrain_gain_in_range (g : Q) :
  0 <= g <= 1000 -> constrain_gain g == g.
Proof.
  intros [H0 H1]. unfold constrain_gain.
  rewrite (Q.min_l g 1000 H1). apply Q.max_r. exact H0.
Qed.

(** ** The external gyro gain setter *)

Lemma ext_gyro_gain_in_range (g : Q) (m : AP_MotorsHeli_Single) :
  0 <= g <= 1000 ->
  ext_gyro_gain g m = set_ext_gyro_gain_std (AP_Int16_set g) m.
Proof.
  intros H. unfold ext_gyro_gain.
  apply in_gain_range in H. rewrite H. reflexivity.
Qed.

Lemma ext_gyro_gain_out_of_range (g : Q) (m : AP_MotorsHeli_Single) :
  ~ (0 <= g <= 1000) -> ext_gyro_gain g m = m.
Proof.
  intros H. unfold ext_gyro_gain.
  destruct (Qge_bool g 0 && Qle_bool g 1000) eqn:E; [| reflexivity].
  apply in_gain_range in E. contradiction.
Qed.

(** C2 (as the code has it).  A gain below 0 or above 1000 leaves the whole
    object, and so the stored gain, unchanged.  A gain in the closed interval
    [0, 1000] is stored after the conversion to [int16_t]: the stored gain
    is the integer part of g, and it is g itself whenever g is a whole
    number (the endpoints 0 and 1000 included). *)
Theorem ext_gyro_gain_guard (g : Q) (m : AP_MotorsHeli_Single) :
  ((g < 0 \/ 1000 < g) -> ext_gyro_gain g m = m) /\
  (0 <= g <= 1000 ->
     _ext_gyro_gain_std (ext_gyro_gain g m) = AP_Int16_set g /\
     inject_Z (_ext_gyro_gain_std (ext_gyro_gain g m)) <= g /\
     g < inject_Z (_ext_gyro_gain_std (ext_gyro_gain g m) + 1) /\
     (forall n : Z, g == inject_Z n ->
        _ext_gyro_gain_std (ext_gyro_gain g m) = n)).
Proof.
  split.
  - intros H. apply ext_gyro_gain_out_of_range. intros [H0 H1].
    destruct H as [H | H]; lra.
  - intros H. rewrite (ext_gyro_gain_in_range g m H). simpl.
    destruct H as [H0 H1].
    repeat split.
    + rewrite (AP_Int16_set_nonneg g H0). apply Qfloor_le.
    + rewrite (AP_Int16_set_nonneg g H0). apply Qlt_floor.
    + intros n Hn. apply AP_Int16_set_integer. exact Hn.
Qed.

Lemma ext_gyro_gain_guard_witness :
  ext_gyro_gain 1200 heli0 = heli0 /\
  _ext_gyro_gain_std (ext_gyro_gain 1000 heli0) = 1000%Z.
Proof.
  split.
  - apply (proj1 (ext_gyro_gain_guard 1200 heli0)). right. reflexivity.
  - apply (proj2 (ext_gyro_gain_guard 1000 heli0)).
    + split; discriminate.
    + reflexivity.
Defined.

(** C2, counterexample.  The gain 1/2 lies in [0, 1000], and the gain stored
    for it is 0, not 1/2. *)
Lemma ext_gyro_gain_fraction_not_exact :
  0 <= (1 # 2) <= 1000 /\
  _ext_gyro_gain_std (ext_gyro_gain (1 # 2) heli0) = 0%Z /\
  ~ inject_Z (_ext_gyro_gain_std (ext_gyro_gain (1 # 2) heli0)) == (1 # 2).
Proof.
  split; [split; discriminate |]. split; [reflexivity |].
  vm_compute. discriminate.
Qed.

(** C3 (as the code has it).  The setter guards, it does not clamp: a gain
    in [0, 1000], where clamping changes nothing, is stored (as an integer);
    any other gain leaves the stored gain as it was. *)
Theorem ext_gyro_gain_no_clamp (g : Q) (m : AP_MotorsHeli_Single) :
  (0 <= g <= 1000 ->
     _ext_gyro_gain_std (ext_gyro_gain g m) = AP_Int16_set (constrain_gain g)) /\
  (~ (0 <= g <= 1000) ->
     _ext_gyro_gain_std (ext_gyro_gain g m) = _ext_gyro_gain_std m).
Proof.
  split; intros H.
  - rewrite (ext_gyro_gain_in_range g m H). simpl.
    apply AP_Int16_set_comp; [tauto |].
    symmetry. apply constrain_gain_in_range. exact H.
  - rewrite (ext_gyro_gain_out_of_range g m H). reflexivity.
Qed.

Lemma ext_gyro_gain_no_clamp_witness :
  _ext_gyro_gain_std (ext_gyro_gain 700 heli0) = 700%Z /\
  _ext_gyro_gain_std (ext_gyro_gain (-5) heli0) = 350%Z.
Proof.
  split.
  - apply (proj1 (ext_gyro_gain_no_clamp 700 heli0)). split; discriminate.
  - apply (proj2 (ext_gyro_gain_no_clamp (-5) heli0)).
    intros [H _]. apply H. reflexivity.
Defined.

(** C3, counterexample.  With the default gain 350 stored, the input 1200
    leaves 350 in place; clamping would have stored 1000. *)
Lemma ext_gyro_gain_1200_not_clamped :
  constrain_gain 1200 == 1000 /\
  _ext_gyro_gain_std heli0 = 350%Z /\
  _ext_gyro_gain_std (ext_gyro_gain 1200 heli0) = 350%Z /\
  ~ inject_Z (_ext_gyro_gain_std (ext_gyro_gain 1200 heli0)) == constrain_gain 1200.
Proof.
  repeat split. vm_compute. discriminate.
Qed.

(** ** Yaw passthrough *)

(** C4.  [supports_yaw_passthrough] answers true exactly when the tail type
    is servo with external gyro (value 1); on each of the five other tail
    types (0, 2, 3, 4, 5) it answers false. *)
Theorem supports_yaw_passthrough_iff (m : AP_MotorsHeli_Single) :
  (supports_yaw_passthrough m = true <->
     _tail_type m = AP_MOTORS_HELI_SINGLE_TAILTYPE_SERVO_EXTGYRO) /\
  AP_MOTORS_HELI_SINGLE_TAILTYPE_SERVO_EXTGYRO = 1%Z /\
  (In (_tail_type m)
      [AP_MOTORS_HELI_SINGLE_TAILTYPE_SERVO;
       AP_MOTORS_HELI_SINGLE_TAILTYPE_DIRECTDRIVE_VARPITCH;
       AP_MOTORS_HELI_SINGLE_TAILTYPE_DIRECTDRIVE_FIXEDPITCH_CW;
       AP_MOTORS_HELI_SINGLE_TAILTYPE_DIRECTDRIVE_FIXEDPITCH_CCW;
       AP_MOTORS_HELI_SINGLE_TAILTYPE_DIRECTDRIVE_VARPIT_EXT_GOV] ->
   supports_yaw_passthrough m = false).
Proof.
  unfold supports_yaw_passthrough. repeat split.
  - apply Z.eqb_eq.
  - apply Z.eqb_eq.
  - intros H. apply Z.eqb_neq. intros E. rewrite E in H.
    simpl in H. repeat (destruct H as [H | H]; [discriminate H |]). exact H.
Qed.

Lemma supports_yaw_passthrough_iff_witness :
  supports_yaw_passthrough
    (with_tail_type AP_MOTORS_HELI_SINGLE_TAILTYPE_DIRECTDRIVE_FIXEDPITCH_CW heli0)
  = false.
Proof.
  apply (proj2 (proj2 (supports_yaw_passthrough_iff
    (with_tail_type AP_MOTORS_HELI_SINGLE_TAILTYPE_DIRECTDRIVE_FIXEDPITCH_CW heli0)))).
  simpl. right. right. left. reflexivity.
Defined.

(** ** Rotor speed *)

(** C10.  [rotor_speed_above_critical] answers true exactly when the
    estimated main rotor speed is strictly greater than the critical speed;
    at a speed equal to the critical speed it answers false. *)
Theorem rotor_speed_above_critical_iff (m : AP_MotorsHeli_Single) :
  (rotor_speed_above_critical m = true <->
     get_critical_speed (_main_rotor m) < get_main_rotor_speed m) /\
  (get_main_rotor_speed m == get_critical_speed (_main_rotor m) ->
     rotor_speed_above_critical m = false).
Proof.
  unfold rotor_speed_above_critical, get_main_rotor_speed. split.
  - apply Qgt_bool_true.
  - intros H. apply not_true_is_false. intros E.
    apply Qgt_bool_true in E. lra.
Qed.

Lemma rotor_speed_above_critical_iff_witness :
  rotor_speed_above_critical (with_main_rotor (rsc_at (1 # 2) (1 # 2)) heli0) = false /\
  rotor_speed_above_critical (with_main_rotor (rsc_at (3 # 4) (1 # 2)) heli0) = true.
Proof.
  split.
  - apply (proj2 (rotor_speed_above_critical_iff
                    (with_main_rotor (rsc_at (1 # 2) (1 # 2)) heli0))).
    reflexivity.
  - apply (proj1 (rotor_speed_above_critical_iff
                    (with_main_rotor (rsc_at (3 # 4) (1 # 2)) heli0))).
    reflexivity.
Defined.

(** ** Feed-forward allocator *)

Lemma construct_mixing_constants
    (CH_7 : Z) (main : AP_MotorsHeli_RSC) (d : ParamDefaults) (speed_hz : Z) :
  let m := construct CH_7 main d speed_hz in
  Bn m = Bn_init /\ Bv_inv m = Bv_inv_init /\
  length (Bn m) = 4%nat /\ Forall (fun row => length row = 3%nat) (Bn m) /\
  length (Bv_inv m) = 4%nat.
Proof.
  simpl. repeat split. repeat constructor.
Qed.

Lemma setters_keep_mixing_constants (g : Q) (b : bool) (m : AP_MotorsHeli_Single) :
  Bn (ext_gyro_gain g m) = Bn m /\ Bv_inv (ext_gyro_gain g m) = Bv_inv m /\
  Bn (set_acro_tail b m) = Bn m /\ Bv_inv (set_acro_tail b m) = Bv_inv m.
Proof.
  unfold ext_gyro_gain.
  destruct (Qge_bool g 0 && Qle_bool g 1000); repeat split.
Qed.

Lemma Bv_inv_apply_allocate (m : AP_MotorsHeli_Single) (a b c : Q) :
  Bn m = Bn_init -> Bv_inv m = Bv_inv_init ->
  Bv_inv_apply m (allocate m [a; b; c]) == 0.
Proof.
  intros HB Hv. unfold Bv_inv_apply, allocate. rewrite HB, Hv.
  unfold Bn_init, Bv_inv_init, dot. simpl. ring.
Qed.

(** C1 (as the arrays have it).  [Bv_inv] gives every allocated command the
    value 0: the four rows of [Bn] add up to the zero row, and [Bv_inv]
    weighs the rows equally.  So the reverse mapping given by [Bv_inv]
    returns the same estimate, that of the zero actuator vector, for every
    command v. *)
Theorem estimate_allocate_constant
    (m : AP_MotorsHeli_Single) (spread : Q -> list Q) (a b c : Q) :
  Bn m = Bn_init -> Bv_inv m = Bv_inv_init -> respects_Qeq spread ->
  Bv_inv_apply m (allocate m [a; b; c]) == 0 /\
  Forall2 Qeq (estimate spread m (allocate m [a; b; c])) (spread 0).
Proof.
  intros HB Hv Hs. split.
  - apply Bv_inv_apply_allocate; assumption.
  - unfold estimate. apply Hs. apply Bv_inv_apply_allocate; assumption.
Qed.

Lemma triple_respects_Qeq : respects_Qeq (fun x => [x; x; x]).
Proof.
  intros x y H. repeat constructor; exact H.
Qed.

Lemma estimate_allocate_constant_witness :
  Bv_inv_apply heli0 (allocate heli0 [1; 2; 3]) == 0 /\
  Forall2 Qeq (estimate (fun x => [x; x; x]) heli0 (allocate heli0 [1; 2; 3]))
              [0; 0; 0].
Proof.
  apply (estimate_allocate_constant heli0 (fun x => [x; x; x]) 1 2 3).
  - reflexivity.
  - reflexivity.
  - exact triple_respects_Qeq.
Defined.

(** C1, counterexample.  On the constructed object, no way of laying the
    value read by [Bv_inv] out on three axes, and no tolerance, make
    [estimate (allocate v)] agree with v for every v: the commands (0,0,0)
    and (2 eps + 1, 0, 0) get the same estimate. *)
Lemma estimate_allocate_no_round_trip :
  ~ exists (spread : Q -> list Q) (eps : Q),
      respects_Qeq spread /\
      forall a b c : Q,
        within_tolerance eps
          (estimate spread heli0 (allocate heli0 [a; b; c])) [a; b; c].
Proof.
  intros (spread & eps & Hs & H).
  pose proof (H 0 0 0) as H0.
  pose proof (H (2 * eps + 1) 0 0) as H1.
  assert (E : Bv_inv_apply heli0 (allocate heli0 [0; 0; 0])
              == Bv_inv_apply heli0 (allocate heli0 [2 * eps + 1; 0; 0])).
  { rewrite !Bv_inv_apply_allocate by reflexivity. reflexivity. }
  apply Hs in E. unfold estimate, within_tolerance in H0, H1.
  destruct (spread (Bv_inv_apply heli0 (allocate heli0 [0; 0; 0])))
    as [| s0 l0]; [inversion H0 |].
  destruct (spread (Bv_inv_apply heli0 (allocate heli0 [2 * eps + 1; 0; 0])))
    as [| s1 l1]; [inversion H1 |].
  apply Forall2_cons_iff in H0. destruct H0 as [A0 _].
  apply Forall2_cons_iff in H1. destruct H1 as [A1 _].
  apply Forall2_cons_iff in E. destruct E as [E _].
  apply Qabs_Qle_condition in A0. apply Qabs_Qle_condition in A1.
  lra.
Qed.

(** ** Slow start *)

Section SlowStartFacts.

Variable slowstart_floor : Q.

Lemma slowstart_first_cycle (m : AP_MotorsHeli_Single) (t0 : Q) :
  check_init m = true ->
  slowstart_started m t0 (slowstart_update true t0 m).
Proof.
  intros H. unfold slowstart_started, slowstart_update. rewrite H. simpl.
  repeat split.
Qed.

Lemma slowstart_cycle_keeps_origin (m s : AP_MotorsHeli_Single) (t0 t : Q) :
  slowstart_started m t0 s ->
  slowstart_started m t0 (slowstart_update true t s).
Proof.
  intros (Hc & Ht & Ha & Hd). unfold slowstart_started, slowstart_update.
  rewrite Hc. simpl. repeat split; assumption.
Qed.

Lemma slowstart_run_keeps_origin (m : AP_MotorsHeli_Single) (t0 : Q)
    (ts : list Q) :
  forall s, slowstart_started m t0 s ->
            slowstart_started m t0 (slowstart_run ts s).
Proof.
  induction ts as [| t ts IH]; intros s Hs; simpl.
  - exact Hs.
  - apply IH. apply slowstart_cycle_keeps_origin. exact Hs.
Qed.

(** The offset of a cycle at time [t] depends on the time since the origin
    only. *)
Lemma slowstart_offset_at (m s : AP_MotorsHeli_Single) (t0 t : Q) :
  slowstart_started m t0 s ->
  slowstart_offset slowstart_floor (slowstart_update true t s)
  = slowstart_floor
    + (_slowstart_amplitude m - slowstart_floor)
      * Qmin 1 ((t - t0) / _slowstart_time m).
Proof.
  intros (Hc & Ht & Ha & Hd). unfold slowstart_offset, slowstart_update.
  rewrite Hc. simpl. rewrite Ha, Hd, Ht. reflexivity.
Qed.

Lemma slowstart_progress_mono (T x y : Q) :
  0 < T -> x <= y -> Qmin 1 (x / T) <= Qmin 1 (y / T).
Proof.
  intros HT Hxy. apply Q.min_le_compat_l. unfold Qdiv.
  apply Qmult_le_compat_r; [exact Hxy |].
  apply Qinv_le_0_compat. apply Qlt_le_weak. exact HT.
Qed.

Lemma slowstart_progress_start (T t0 : Q) : Qmin 1 ((t0 - t0) / T) == 0.
Proof.
  assert (E : (t0 - t0) / T == 0) by (unfold Qdiv; ring).
  rewrite E. apply Q.min_r. discriminate.
Qed.

Lemma slowstart_progress_end (T t0 : Q) :
  0 < T -> Qmin 1 ((t0 + T - t0) / T) == 1.
Proof.
  intros HT.
  assert (E : (t0 + T - t0) / T == 1) by (field; lra).
  rewrite E. apply Q.min_l. apply Qle_refl.
Qed.

Lemma slowstart_restart (s : AP_MotorsHeli_Single) (t t' : Q) :
  slowstart_offset slowstart_floor
    (slowstart_update true t' (slowstart_update false t s))
  == slowstart_floor.
Proof.
  unfold slowstart_offset, slowstart_update. simpl.
  rewrite slowstart_progress_start. ring.
Qed.

End SlowStartFacts.

(** C6.  For a ramp with a positive duration and a floor not above the
    amplitude, enabled at clock time t0 on an object whose [check_init] is
    set: the offset of the first cycle (elapsed time 0) is the floor value;
    the offset of a cycle at t0 + [_slowstart_time] is the amplitude,
    whatever enabled cycles came before it; the offset of a later cycle is
    never below that of an earlier one; enabled cycles keep the time origin
    t0 (no restart); and after a disabled cycle the next enabled cycle is
    back at the floor value. *)
Theorem slowstart_ramp_spec
    (slowstart_floor : Q) (m : AP_MotorsHeli_Single) (t0 : Q) :
  check_init m = true ->
  0 < _slowstart_time m ->
  slowstart_floor <= _slowstart_amplitude m ->
  let started := slowstart_update true t0 m in
  let offset := slowstart_offset slowstart_floor in
  offset started == slowstart_floor /\
  (forall ts,
     offset (slowstart_update true (t0 + _slowstart_time m)
               (slowstart_run ts started))
     == _slowstart_amplitude m) /\
  (forall ts ts' t1 t2, t1 <= t2 ->
     let s1 := slowstart_update true t1 (slowstart_run ts started) in
     offset s1 <= offset (slowstart_update true t2 (slowstart_run ts' s1))) /\
  (forall ts,
     check_init (slowstart_run ts started) = false /\
     time_init_init (slowstart_run ts started) = t0) /\
  (forall ts t t',
     offset (slowstart_update true t'
               (slowstart_update false t (slowstart_run ts started)))
     == slowstart_floor).
Proof.
  intros Hc HT Hfl started offset.
  assert (S0 : slowstart_started m t0 started)
    by (apply slowstart_first_cycle; exact Hc).
  assert (SR : forall ts, slowstart_started m t0 (slowstart_run ts started))
    by (intros ts; apply slowstart_run_keeps_origin; exact S0).
  repeat split.
  - unfold offset, started, slowstart_offset, slowstart_update.
    rewrite Hc. simpl. rewrite slowstart_progress_start. ring.
  - intros ts. unfold offset.
    rewrite (slowstart_offset_at slowstart_floor m _ t0 _ (SR ts)).
    rewrite (slowstart_progress_end _ t0 HT). ring.
  - intros ts ts' t1 t2 Ht s1. unfold offset.
    assert (S1 : slowstart_started m t0 s1)
      by (apply slowstart_cycle_keeps_origin; apply SR).
    unfold s1 at 1.
    rewrite (slowstart_offset_at slowstart_floor m _ t0 _ (SR ts)).
    rewrite (slowstart_offset_at slowstart_floor m _ t0 _
               (slowstart_run_keeps_origin m t0 ts' s1 S1)).
    assert (P : Qmin 1 ((t1 - t0) / _slowstart_time m)
                <= Qmin 1 ((t2 - t0) / _slowstart_time m))
      by (apply slowstart_progress_mono; [exact HT | lra]).
    nra.
  - apply (SR ts).
  - apply (SR ts).
  - intros ts t t'. apply slowstart_restart.
Qed.

Lemma slowstart_ramp_spec_witness :
  slowstart_offset (1 # 10) (slowstart_update true 5 heli0) == 1 # 10 /\
  slowstart_offset (1 # 10)
    (slowstart_update true 6 (slowstart_run [5.25; 5.5] (slowstart_update true 5 heli0)))
  == 50.
Proof.
  destruct (slowstart_ramp_spec (1 # 10) heli0 5) as (H0 & H1 & _).
  - reflexivity.
  - reflexivity.
  - discriminate.
  - split; [exact H0 | exact (H1 [5.25; 5.5])].
Defined.

(** ** Pre-arm parameter check *)


Section ParameterCheckFacts.

Variable tail_assumes_no_flybar : Z -> bool.



End ParameterCheckFacts.





(** ** Further properties of the inline setters *)

Lemma gain_accepted_iff (g : Q) : gain_accepted g = true <-> 0 <= g <= 1000.
Proof. apply in_gain_range. Qed.

Lemma ext_gyro_gain_accepted (g : Q) (m : AP_MotorsHeli_Single) :
  ext_gyro_gain g m
  = if gain_accepted g then set_ext_gyro_gain_std (AP_Int16_set g) m else m.
Proof. reflexivity. Qed.

Lemma AP_Int16_set_range (g : Q) :
  0 <= g <= 1000 -> (0 <= AP_Int16_set g <= 1000)%Z.
Proof.
  intros [H0 H1]. rewrite (AP_Int16_set_nonneg g H0). split.
  - change 0%Z with (Qfloor (inject_Z 0)). apply Qfloor_resp_le. exact H0.
  - change 1000%Z with (Qfloor (inject_Z 1000)). apply Qfloor_resp_le. exact H1.
Qed.

Lemma set_ext_gyro_gain_std_same (m : AP_MotorsHeli_Single) :
  set_ext_gyro_gain_std (_ext_gyro_gain_std m) m = m.
Proof. destruct m. reflexivity. Qed.

Lemma apply_calls_snoc (cs : list setter_call) (c : setter_call)
    (m : AP_MotorsHeli_Single) :
  apply_calls (cs ++ [c]) m = apply_call c (apply_calls cs m).
Proof. unfold apply_calls. rewrite fold_left_app. reflexivity. Qed.

(** X1.  [ext_gyro_gain] leaves the object as it is exactly when the gain
    fails the range test or the stored gain already is the integer part of
    the gain. *)
Theorem ext_gyro_gain_noop_iff (g : Q) (m : AP_MotorsHeli_Single) :
  ext_gyro_gain g m = m <->
  (~ (0 <= g <= 1000) \/ AP_Int16_set g = _ext_gyro_gain_std m).
Proof.
  rewrite ext_gyro_gain_accepted.
  destruct (gain_accepted g) eqn:E.
  - apply gain_accepted_iff in E. split.
    + intros H. right.
      apply (f_equal _ext_gyro_gain_std) in H. exact H.
    + intros [H | H]; [contradiction |].
      rewrite H. apply set_ext_gyro_gain_std_same.
  - split; [| reflexivity]. intros _. left. intros H.
    apply gain_accepted_iff in H. congruence.
Qed.

(** X2.  A call with a gain in [0, 1000] overrides whatever an earlier call
    stored; a call with a gain outside the range leaves the result of the
    earlier call; and the same call twice is the same as once. *)
Theorem ext_gyro_gain_absorbs (g1 g2 : Q) (m : AP_MotorsHeli_Single) :
  (0 <= g2 <= 1000 ->
     ext_gyro_gain g2 (ext_gyro_gain g1 m) = ext_gyro_gain g2 m) /\
  (~ (0 <= g2 <= 1000) ->
     ext_gyro_gain g2 (ext_gyro_gain g1 m) = ext_gyro_gain g1 m) /\
  ext_gyro_gain g1 (ext_gyro_gain g1 m) = ext_gyro_gain g1 m.
Proof.
  repeat split.
  - intros H. rewrite !(ext_gyro_gain_in_range g2 _ H).
    rewrite (ext_gyro_gain_accepted g1). destruct (gain_accepted g1); reflexivity.
  - intros H. apply ext_gyro_gain_out_of_range. exact H.
  - rewrite !(ext_gyro_gain_accepted g1).
    destruct (gain_accepted g1); reflexivity.
Qed.

Lemma ext_gyro_gain_absorbs_witness :
  ext_gyro_gain 700 (ext_gyro_gain 20 heli0) = ext_gyro_gain 700 heli0 /\
  ext_gyro_gain 1200 (ext_gyro_gain 20 heli0) = ext_gyro_gain 20 heli0.
Proof.
  split.
  - apply (proj1 (ext_gyro_gain_absorbs 20 700 heli0)). split; discriminate.
  - apply (proj1 (proj2 (ext_gyro_gain_absorbs 20 1200 heli0))).
    intros [_ H]. apply H. reflexivity.
Defined.

(** X3.  Among gains in [0, 1000] the stored value follows the order of the
    gains: a larger gain never stores a smaller value, on whatever objects
    the two calls are made. *)
Theorem ext_gyro_gain_monotone (g1 g2 : Q) (m1 m2 : AP_MotorsHeli_Single) :
  0 <= g1 -> g1 <= g2 -> g2 <= 1000 ->
  (_ext_gyro_gain_std (ext_gyro_gain g1 m1)
   <= _ext_gyro_gain_std (ext_gyro_gain g2 m2))%Z.
Proof.
  intros H0 H12 H2.
  assert (R1 : 0 <= g1 <= 1000) by (split; lra).
  assert (R2 : 0 <= g2 <= 1000) by (split; lra).
  rewrite (ext_gyro_gain_in_range g1 m1 R1), (ext_gyro_gain_in_range g2 m2 R2).
  simpl. rewrite !AP_Int16_set_nonneg by tauto.
  apply Qfloor_resp_le. exact H12.
Qed.

Lemma ext_gyro_gain_monotone_witness :
  (_ext_gyro_gain_std (ext_gyro_gain (7 # 2) heli0)
   <= _ext_gyro_gain_std (ext_gyro_gain (15 # 4) (set_acro_tail true heli0)))%Z.
Proof.
  apply (ext_gyro_gain_monotone (7 # 2) (15 # 4) heli0 (set_acro_tail true heli0));
    discriminate.
Defined.

(** X4.  The two setters commute: the acro flag and the gain may be set in
    either order. *)
Theorem setters_commute (g : Q) (b : bool) (m : AP_MotorsHeli_Single) :
  set_acro_tail b (ext_gyro_gain g m) = ext_gyro_gain g (set_acro_tail b m).
Proof.
  rewrite !ext_gyro_gain_accepted. destruct (gain_accepted g); reflexivity.
Qed.

(** ** Sequences of setter calls *)

Lemma gains_of_snoc (cs : list setter_call) (c : setter_call) :
  gains_of (cs ++ [c]) = gains_of cs ++ gains_of [c].
Proof. unfold gains_of. apply flat_map_app. Qed.

Lemma acro_flags_of_snoc (cs : list setter_call) (c : setter_call) :
  acro_flags_of (cs ++ [c]) = acro_flags_of cs ++ acro_flags_of [c].
Proof. unfold acro_flags_of. apply flat_map_app. Qed.

(** X5.  After any sequence of setter calls the stored gain is the integer
    part of the last gain that passed the range test, and the gain stored
    before the calls when none passed. *)
Theorem apply_calls_ext_gyro_gain_std
    (cs : list setter_call) (m : AP_MotorsHeli_Single) :
  _ext_gyro_gain_std (apply_calls cs m)
  = last (map AP_Int16_set (filter gain_accepted (gains_of cs)))
         (_ext_gyro_gain_std m).
Proof.
  induction cs as [| c cs IH] using rev_ind.
  - reflexivity.
  - rewrite apply_calls_snoc, gains_of_snoc, filter_app, map_app.
    destruct c as [g | b]; simpl.
    + rewrite ext_gyro_gain_accepted.
      destruct (gain_accepted g); simpl.
      * rewrite last_last. reflexivity.
      * rewrite app_nil_r. exact IH.
    + rewrite app_nil_r. exact IH.
Qed.

(** X6.  After any sequence of setter calls the acro flag is the argument of
    the last [set_acro_tail] call, and the flag from before the calls when
    there was none; calls of [ext_gyro_gain] do not touch it. *)
Theorem apply_calls_acro_tail
    (cs : list setter_call) (m : AP_MotorsHeli_Single) :
  _acro_tail (apply_calls cs m) = last (acro_flags_of cs) (_acro_tail m).
Proof.
  induction cs as [| c cs IH] using rev_ind.
  - reflexivity.
  - rewrite apply_calls_snoc, acro_flags_of_snoc.
    destruct c as [g | b]; simpl.
    + rewrite app_nil_r, ext_gyro_gain_accepted.
      destruct (gain_accepted g); exact IH.
    + rewrite last_last. reflexivity.
Qed.

Lemma apply_calls_state (cs : list setter_call) :
  forall m : AP_MotorsHeli_Single,
    apply_calls cs m
    = set_acro_tail (_acro_tail (apply_calls cs m))
        (set_ext_gyro_gain_std (_ext_gyro_gain_std (apply_calls cs m)) m).
Proof.
  induction cs as [| c cs IH]; intros m.
  - destruct m. reflexivity.
  - change (apply_calls (c :: cs) m) with (apply_calls cs (apply_call c m)).
    rewrite (IH (apply_call c m)) at 1.
    destruct c as [g | b]; simpl apply_call.
    + rewrite (ext_gyro_gain_accepted g m) at 3.
      destruct (gain_accepted g); reflexivity.
    + reflexivity.
Qed.

(** X7.  Setter calls write the standard gain and the acro flag and nothing
    else: after any sequence of them the object is the one from before with
    these two members replaced, so every query of the header answers as
    before, and the acro gain is as before. *)
Theorem apply_calls_frame (cs : list setter_call) (m : AP_MotorsHeli_Single) :
  apply_calls cs m
  = set_acro_tail (_acro_tail (apply_calls cs m))
      (set_ext_gyro_gain_std (_ext_gyro_gain_std (apply_calls cs m)) m) /\
  supports_yaw_passthrough (apply_calls cs m) = supports_yaw_passthrough m /\
  has_flybar (apply_calls cs m) = has_flybar m /\
  rotor_speed_above_critical (apply_calls cs m) = rotor_speed_above_critical m /\
  get_main_rotor_speed (apply_calls cs m) = get_main_rotor_speed m /\
  get_desired_rotor_speed (apply_calls cs m) = get_desired_rotor_speed m /\
  get_main_governor_output (apply_calls cs m) = get_main_governor_output m /\
  get_main_control_output (apply_calls cs m) = get_main_control_output m /\
  _ext_gyro_gain_acro (apply_calls cs m) = _ext_gyro_gain_acro m.
Proof.
  pose proof (apply_calls_state cs m) as H.
  split; [exact H |].
  remember (apply_calls cs m) as s eqn:Es. clear Es.
  rewrite H. repeat split.
Qed.

(** X8.  The stored gain stays within 0 .. 1000: if it is there before a
    sequence of setter calls, or if one of the calls hands over a gain that
    passes the range test, it is there afterwards. *)
Theorem apply_calls_gain_in_range
    (cs : list setter_call) (m : AP_MotorsHeli_Single) :
  (0 <= _ext_gyro_gain_std m <= 1000)%Z
  \/ (exists g, In g (gains_of cs) /\ 0 <= g <= 1000) ->
  (0 <= _ext_gyro_gain_std (apply_calls cs m) <= 1000)%Z.
Proof.
  induction cs as [| c cs IH] using rev_ind; intros H.
  - destruct H as [H | (g & [] & _)]. exact H.
  - rewrite apply_calls_snoc.
    destruct c as [g | b]; simpl apply_call.
    + rewrite ext_gyro_gain_accepted.
      destruct (gain_accepted g) eqn:E.
      * simpl. apply AP_Int16_set_range. apply gain_accepted_iff. exact E.
      * apply IH. destruct H as [H | (g' & Hin & Hg')]; [left; exact H |].
        right. exists g'. split; [| exact Hg'].
        rewrite gains_of_snoc in Hin. apply in_app_or in Hin.
        destruct Hin as [Hin | [Hin | []]]; [exact Hin |].
        subst g'. apply gain_accepted_iff in Hg'. congruence.
    + simpl. apply IH. destruct H as [H | (g' & Hin & Hg')]; [left; exact H |].
      right. exists g'. split; [| exact Hg'].
      rewrite gains_of_snoc in Hin. simpl in Hin. rewrite app_nil_r in Hin.
      exact Hin.
Qed.

Lemma apply_calls_gain_in_range_witness :
  (0 <= _ext_gyro_gain_std
          (apply_calls [call_ext_gyro_gain 1200; call_set_acro_tail true;
                        call_ext_gyro_gain (-3)] heli0) <= 1000)%Z /\
  (0 <= _ext_gyro_gain_std
          (apply_calls [call_ext_gyro_gain (1001 # 2); call_ext_gyro_gain 4000]
             (set_ext_gyro_gain_std 5000 heli0)) <= 1000)%Z.
Proof.
  split.
  - apply (apply_calls_gain_in_range
             [call_ext_gyro_gain 1200; call_set_acro_tail true;
              call_ext_gyro_gain (-3)] heli0).
    left. vm_compute. split; discriminate.
  - apply (apply_calls_gain_in_range
             [call_ext_gyro_gain (1001 # 2); call_ext_gyro_gain 4000]
             (set_ext_gyro_gain_std 5000 heli0)).
    right. exists (1001 # 2). split.
    + simpl. left. reflexivity.
    + split; discriminate.
Defined.

(** X9.  What the constructor sets up outlives the setters: after any
    sequence of setter calls on a constructed object the feed-forward arrays
    hold their initial entries, the tail rotor controller is the tail RSC
    function on the channel of the external gyro, the main rotor and the
    configured tail type are the ones given, and the slow start is still
    waiting for its first cycle. *)
Theorem apply_calls_construct
    (CH_7 : Z) (main : AP_MotorsHeli_RSC) (d : ParamDefaults) (speed_hz : Z)
    (cs : list setter_call) :
  let m := apply_calls cs (construct CH_7 main d speed_hz) in
  Bn m = Bn_init /\ Bv_inv m = Bv_inv_init /\
  rsc_aux_fn (_tail_rotor m) = k_heli_tail_rsc /\
  rsc_default_channel (_tail_rotor m) = AP_MOTORS_HELI_SINGLE_EXTGYRO CH_7 /\
  _main_rotor m = main /\
  _tail_type m = d_tail_type d /\
  _ext_gyro_gain_acro m = d_ext_gyro_gain_acro d /\
  check_init m = true /\ time_div_startime m == 0.
Proof.
  intros m. unfold m.
  pose proof (apply_calls_state cs (construct CH_7 main d speed_hz)) as H.
  remember (apply_calls cs (construct CH_7 main d speed_hz)) as s eqn:Es.
  clear Es. rewrite H. simpl. repeat split.
Qed.

(** ** Rotor speed, continued *)

(** X10.  [rotor_speed_above_critical] follows the order of speeds: once it
    answers true it answers true for every higher rotor speed and every lower
    critical speed. *)
Theorem rotor_speed_above_critical_monotone (m1 m2 : AP_MotorsHeli_Single) :
  get_main_rotor_speed m1 <= get_main_rotor_speed m2 ->
  get_critical_speed (_main_rotor m2) <= get_critical_speed (_main_rotor m1) ->
  rotor_speed_above_critical m1 = true ->
  rotor_speed_above_critical m2 = true.
Proof.
  unfold rotor_speed_above_critical, get_main_rotor_speed.
  intros Hs Hc H.
  apply Qgt_bool_true in H. apply Qgt_bool_true.
  eapply Qle_lt_trans; [exact Hc |].
  eapply Qlt_le_trans; [exact H | exact Hs].
Qed.

Lemma rotor_speed_above_critical_monotone_witness :
  rotor_speed_above_critical (with_main_rotor (rsc_at (9 # 10) (2 # 5)) heli0) = true.
Proof.
  apply (rotor_speed_above_critical_monotone
           (with_main_rotor (rsc_at (3 # 4) (1 # 2)) heli0)
           (with_main_rotor (rsc_at (9 # 10) (2 # 5)) heli0)).
  - discriminate.
  - discriminate.
  - reflexivity.
Defined.

(** ** The setter and the tail type *)

(** X11.  [ext_gyro_gain] does not look at the tail type or at the acro
    flag: the gain it stores is the same on every tail type, with or
    without an external gyro, and in or out of acro mode. *)
Theorem ext_gyro_gain_any_tail_type
    (g : Q) (t : Z) (b : bool) (m : AP_MotorsHeli_Single) :
  ext_gyro_gain g (with_tail_type t (set_acro_tail b m))
  = with_tail_type t (set_acro_tail b (ext_gyro_gain g m)) /\
  _ext_gyro_gain_std (ext_gyro_gain g (with_tail_type t (set_acro_tail b m)))
  = _ext_gyro_gain_std (ext_gyro_gain g m).
Proof.
  rewrite !ext_gyro_gain_accepted. destruct (gain_accepted g); split; reflexivity.
Qed.

Lemma ext_gyro_gain_noop_iff_witness :
  ext_gyro_gain (701 # 2) (set_ext_gyro_gain_std 350 heli0)
  = set_ext_gyro_gain_std 350 heli0.
Proof.
  apply (proj2 (ext_gyro_gain_noop_iff (701 # 2) (set_ext_gyro_gain_std 350 heli0))).
  right. reflexivity.
Defined.
